(** * SwiftVLC: the CLibVLC log shim ([Sources/CLibVLC/shim.c])

    A shallow embedding of the three functions of [shim.c]
    ([swiftvlc_log_bridge], [swiftvlc_log_set], [swiftvlc_log_unset]) and of
    the contracts of the C library and libVLC functions they call.

    Conventions.
    - A pointer ([void *], a function pointer, a [libvlc_instance_t *]) is an
      address in [Z]; [NULL] is [0].
    - A [const char *] the shim only passes on (the module name) is an
      [option (list byte)]: [None] is the null pointer, [Some bs] a pointer to
      the characters [bs] followed by a terminator.
    - A [char] array is a [list (option byte)]; [None] is a cell whose value
      is indeterminate (an automatic array before anything is written).
    - Undefined behaviour is a [Crash]: execution stops at the faulting
      access with the state it had there. *)

From Stdlib Require Import ZArith List Lia.
From Stdlib Require Import Strings.Byte Strings.String DecimalString.
From stdpp Require Import base option list gmap.

Local Open Scope Z_scope.

(** ** Data model *)

Definition NULL : Z := 0.

(** [struct swiftvlc_log_context]. A field is [None] until its first store:
    [malloc] returns a block with indeterminate contents. *)
Record swiftvlc_log_context := Build_context {
  callback : option Z;
  data : option Z
}.

(** Modelled from the spec: [libvlc_log_t] is declared in [vlc/vlc.h], which
    is not among the sources. The spec describes it as an opaque structure
    describing one log event's source context (module, header, line); each
    name is a nullable string. *)
Record libvlc_log_t := Build_log {
  log_module : option (list byte);
  log_header : option (list byte);
  log_line : Z
}.

(** One variadic argument, and a [va_list]. *)
Inductive va_arg :=
| VaInt (n : Z)
| VaStr (s : option (list byte))
| VaPtr (p : Z)
| VaDouble (bits : Z).

Definition va_list := list va_arg.

(** Values of type [libvlc_log_cb]: the address of the static function
    [swiftvlc_log_bridge], or of a handler defined elsewhere. *)
Inductive libvlc_log_cb :=
| fn_swiftvlc_log_bridge
| fn_other (a : Z).

(** What the program does to its environment, in program order. *)
Inductive effect :=
| Emalloc (p : Z)
| Efree (p : Z)
| Elibvlc_log_set (instance : Z) (cb : libvlc_log_cb) (opaque : Z)
| Elibvlc_log_unset (instance : Z)
| Eother_handler (a : Z) (opaque : Z)
| Eswiftvlc_log_cb (fn : Z) (user_data : Z) (level : Z)
                   (module : option (list byte))
                   (message : list (option byte)).

(** The state the three functions act on.
    - [heap]: the live blocks obtained from [malloc];
    - [pool]: the addresses the allocator hands out next (it fails when the
      pool is empty); an address is positive, hence never [NULL];
    - [logger]: libVLC's logging subsystem, per instance the registered
      handler and its opaque state;
    - [trace]: the effects so far. *)
Record state := Build_state {
  heap : gmap Z swiftvlc_log_context;
  pool : list positive;
  logger : gmap Z (libvlc_log_cb * Z);
  trace : list effect
}.

Definition set_heap (h : gmap Z swiftvlc_log_context) (s : state) : state :=
  Build_state h (pool s) (logger s) (trace s).
Definition set_pool (p : list positive) (s : state) : state :=
  Build_state (heap s) p (logger s) (trace s).
Definition set_logger (l : gmap Z (libvlc_log_cb * Z)) (s : state) : state :=
  Build_state (heap s) (pool s) l (trace s).
Definition emit (e : effect) (s : state) : state :=
  Build_state (heap s) (pool s) (logger s) (trace s ++ [e]).

(** ** The state and fault monad *)

Inductive fault :=
| NullDeref           (* access through a null pointer *)
| DanglingAccess      (* access through a pointer to no live block *)
| IndeterminateRead   (* read of a field never stored to *)
| InvalidFree         (* free of a pointer malloc did not return, or twice *)
| NullCall.           (* call through a null function pointer *)

Inductive outcome (A : Type) :=
| Done (a : A) (s : state)
| Crash (f : fault) (s : state).
Arguments Done {A} a s.
Arguments Crash {A} f s.

Definition M (A : Type) : Type := state → outcome A.

#[global] Instance M_ret : MRet M := λ A a s, Done a s.
#[global] Instance M_bind : MBind M := λ A B k m s,
  match m s with
  | Done a s' => k a s'
  | Crash f s' => Crash f s'
  end.

Definition final_state {A} (r : outcome A) : state :=
  match r with Done _ s => s | Crash _ s => s end.

(** ** The C library *)

(** [malloc(sizeof(struct swiftvlc_log_context))]: a fresh block with
    indeterminate fields, or [NULL] when the allocator has nothing left. *)
Definition malloc : M Z := λ s,
  match pool s with
  | [] => Done NULL (emit (Emalloc NULL) s)
  | a :: rest =>
      Done (Z.pos a)
           (emit (Emalloc (Z.pos a))
              (set_pool rest
                 (set_heap (<[Z.pos a := Build_context None None]> (heap s)) s)))
  end.

(** [free(p)]: nothing for [NULL]; releases a live block; anything else is
    undefined. *)
Definition free (p : Z) : M unit := λ s,
  if decide (p = NULL) then Done tt (emit (Efree p) s)
  else match heap s !! p with
       | Some _ =>
           Done tt (emit (Efree p)
                      (set_pool (Z.to_pos p :: pool s)
                         (set_heap (delete p (heap s)) s)))
       | None => Crash InvalidFree s
       end.

(** [context->callback = v] and [context->data = v]. *)
Definition store_callback (context v : Z) : M unit := λ s,
  if decide (context = NULL) then Crash NullDeref s
  else match heap s !! context with
       | Some c =>
           Done tt (set_heap (<[context := Build_context (Some v) (data c)]> (heap s)) s)
       | None => Crash DanglingAccess s
       end.

Definition store_data (context v : Z) : M unit := λ s,
  if decide (context = NULL) then Crash NullDeref s
  else match heap s !! context with
       | Some c =>
           Done tt (set_heap (<[context := Build_context (callback c) (Some v)]> (heap s)) s)
       | None => Crash DanglingAccess s
       end.

(** The rvalues [context->callback] and [context->data]. *)
Definition load_field (f : swiftvlc_log_context → option Z) (context : Z) : M Z := λ s,
  if decide (context = NULL) then Crash NullDeref s
  else match heap s !! context with
       | Some c =>
           match f c with
           | Some v => Done v s
           | None => Crash IndeterminateRead s
           end
       | None => Crash DanglingAccess s
       end.

Definition load_callback : Z → M Z := load_field callback.
Definition load_data : Z → M Z := load_field data.

(** A call through a [swiftvlc_log_cb] function pointer. The callee is host
    code: all this development sees of it is that it was called, and with
    what. [message] is the contents of the array the fourth argument points
    to, at the time of the call. *)
Definition call_swiftvlc_log_cb (fn user_data level : Z)
    (module : option (list byte)) (message : list (option byte)) : M unit := λ s,
  if decide (fn = NULL) then Crash NullCall s
  else Done tt (emit (Eswiftvlc_log_cb fn user_data level module message) s).

(** Storing the characters [cs] from the start of the array [buf]. The
    cells after them keep their contents. Were [cs] longer than [buf], the
    result would be longer than [buf]: a write past the end of the array. *)
Definition write_chars (buf : list (option byte)) (cs : list byte) : list (option byte) :=
  (Some <$> cs) ++ drop (length cs) buf.

(** The string a reader of the array sees: the characters before the first
    terminator. [None] when the reader meets an indeterminate cell or the
    end of the array first. *)
Fixpoint c_string (buf : list (option byte)) : option (list byte) :=
  match buf with
  | [] => None
  | None :: _ => None
  | Some b :: rest =>
      if Byte.eqb b x00 then Some []
      else cons b <$> c_string rest
  end.

(** ** libVLC *)

(** Modelled from the spec: [libvlc_log_get_context] is declared in
    [vlc/vlc.h]. The spec: the library provides accessors to pull module
    name, header, and line number out of an opaque log-record handle. The
    three results are what the call stores through its three out-pointers,
    replacing what the pointed-to variables held. *)
Definition libvlc_log_get_context (ctx : libvlc_log_t)
  : option (list byte) * option (list byte) * Z :=
  (log_module ctx, log_header ctx, log_line ctx).

(** Modelled from the spec: [libvlc_log_set] is declared in [vlc/vlc.h]. The
    spec: the logging registration API accepts a fixed-signature handler and
    an opaque per-registration state pointer; a second registration replaces
    the stored handler and data pointer. *)
Definition libvlc_log_set (instance : Z) (cb : libvlc_log_cb) (opaque : Z) : M unit := λ s,
  Done tt (emit (Elibvlc_log_set instance cb opaque)
             (set_logger (<[instance := (cb, opaque)]> (logger s)) s)).

(** Modelled from the spec: [libvlc_log_unset] is declared in [vlc/vlc.h].
    The spec: after it the library will no longer invoke the handler. *)
Definition libvlc_log_unset (instance : Z) : M unit := λ s,
  Done tt (emit (Elibvlc_log_unset instance)
             (set_logger (delete instance (logger s)) s)).

(** ** [shim.c]: install and uninstall *)

Definition swiftvlc_log_set (instance callback data : Z) : M Z :=
  context ← malloc;
  store_callback context callback;;
  store_data context data;;
  libvlc_log_set instance fn_swiftvlc_log_bridge context;;
  mret context.

Definition swiftvlc_log_unset (instance context : Z) : M unit :=
  libvlc_log_unset instance;;
  free context.

(** One log event as the library raises it: severity, log record, format
    string and arguments. *)
Record log_event := Build_event {
  ev_level : Z;
  ev_ctx : libvlc_log_t;
  ev_fmt : list byte;
  ev_args : va_list
}.

(** ** A small formatter, to run the model on

    [mini_format] understands [%%], [%s], [%c] and [%d] and rejects every
    other conversion. It is one possible value of the formatter the
    development is parameterised by; no theorem depends on it. *)

Definition decimal (n : Z) : list byte :=
  list_byte_of_string (DecimalString.NilZero.string_of_int (Z.to_int n)).

Fixpoint mini_format (fmt : list byte) (args : va_list) : option (list byte) :=
  match fmt with
  | [] => Some []
  | b :: rest =>
      if Byte.eqb b "%"%byte then
        match rest with
        | [] => None
        | c :: rest' =>
            if Byte.eqb c "%"%byte then cons c <$> mini_format rest' args
            else if Byte.eqb c "s"%byte then
              match args with
              | VaStr (Some str) :: args' => app str <$> mini_format rest' args'
              | _ => None
              end
            else if Byte.eqb c "c"%byte then
              match args with
              | VaInt n :: args' =>
                  match Byte.of_N (Z.to_N (n mod 256)) with
                  | Some ch => cons ch <$> mini_format rest' args'
                  | None => None
                  end
              | _ => None
              end
            else if Byte.eqb c "d"%byte then
              match args with
              | VaInt n :: args' => app (decimal n) <$> mini_format rest' args'
              | _ => None
              end
            else None
        end
      else cons b <$> mini_format rest args
  end.

Definition bytes : string → list byte := list_byte_of_string.

#[global] Instance byte_eq_decision : EqDecision byte := byte_eq_dec.

(** ** Sample inputs *)

(** An allocator with one block left, at address 5, and one with none. *)
Definition one_block : state := Build_state ∅ [5%positive] ∅ [].
Definition out_of_memory : state := Build_state ∅ [] ∅ [].

(** The state after [swiftvlc_log_set] on instance 1 from [one_block]. *)
Definition installed (fn user_data : Z) : state :=
  final_state (swiftvlc_log_set 1 fn user_data one_block).

Definition core_record : libvlc_log_t :=
  Build_log (Some (bytes "core")) (Some (bytes "input")) 38.

Definition opened : log_event :=
  Build_event 3 core_record (bytes "opened %s (%d%%)")
    [VaStr (Some (bytes "a.mkv")); VaInt 42].

Definition long_line : log_event :=
  Build_event 4 core_record (bytes "%s")
    [VaStr (Some (replicate 2000 "x"%byte))].

Section Bridge.

(** The formatting engine of the C library: the characters that
    [fmt]/[args] produce, however long, or [None] when the conversion fails
    (an encoding error). *)
Variable vformat : list byte → va_list → option (list byte).

(** [vsnprintf(s, n, format, arg)], C11 7.21.6.12 with 7.21.6.5: characters
    beyond the [n-1]st are discarded, a terminator follows the characters
    written, nothing is written when [n] is zero; the result is the number
    of characters a large enough [n] would have given, negative on an
    encoding error (the array is then left as it was). *)
Definition vsnprintf (s : list (option byte)) (n : nat)
    (format : list byte) (arg : va_list) : list (option byte) * Z :=
  match vformat format arg with
  | None => (s, -1)
  | Some out =>
      match n with
      | O => (s, Z.of_nat (length out))
      | S m => (write_chars s (take m out ++ [x00]), Z.of_nat (length out))
      end
  end.

(** ** [shim.c]: the trampoline *)

Definition swiftvlc_log_bridge (data level : Z) (ctx : libvlc_log_t)
    (fmt : list byte) (args : va_list) : M unit :=
  let context := data in
  (* char buf[1024]; vsnprintf(buf, sizeof(buf), fmt, args); *)
  let buf : list (option byte) := replicate 1024 None in
  let '(buf, _) := vsnprintf buf (length buf) fmt args in
  (* const char *module = NULL; const char *header = NULL; unsigned line = 0;
     libvlc_log_get_context(ctx, &module, &header, &line); *)
  let module : option (list byte) := None in
  let header : option (list byte) := None in
  let line := 0 in
  let '(module, header, line) := libvlc_log_get_context ctx in
  (* context->callback(context->data, level, module, buf); *)
  fn ← load_callback context;
  user_data ← load_data context;
  call_swiftvlc_log_cb fn user_data level module buf.

(** ** libVLC delivering log events *)

(** Modelled from the spec: the library's side of a log event is not among
    the sources. The spec: the underlying library invokes the registered
    handler, with the registered opaque state, a severity, a log record, a
    format string and an argument list, on each log event; an instance with
    no handler registered invokes nothing. *)
Definition libvlc_log (instance : Z) (ev : log_event) : M unit := λ s,
  match logger s !! instance with
  | None => Done tt s
  | Some (fn_swiftvlc_log_bridge, opaque) =>
      swiftvlc_log_bridge opaque (ev_level ev) (ev_ctx ev) (ev_fmt ev) (ev_args ev) s
  | Some (fn_other a, opaque) => Done tt (emit (Eother_handler a opaque) s)
  end.

(** A run of log events, each on some instance. *)
Fixpoint libvlc_logs (evs : list (Z * log_event)) : M unit :=
  match evs with
  | [] => mret tt
  | (instance, ev) :: evs' => libvlc_log instance ev;; libvlc_logs evs'
  end.

(** The call of the simplified callback that the log event [ev] gives rise
    to through a context holding [fn] and [user_data]. *)
Definition callback_of (fn user_data : Z) (ev : log_event) : effect :=
  Eswiftvlc_log_cb fn user_data (ev_level ev) (log_module (ev_ctx ev))
    (vsnprintf (replicate 1024 None) 1024 (ev_fmt ev) (ev_args ev)).1.

(** Every registration of the trampoline has, as its opaque state, a live
    context with both fields stored and a callback that is not null. *)
Definition registrations_live (s : state) : Prop :=
  ∀ instance p,
    logger s !! instance = Some (fn_swiftvlc_log_bridge, p) →
    p ≠ NULL
    ∧ ∃ fn user_data,
        heap s !! p = Some (Build_context (Some fn) (Some user_data))
        ∧ fn ≠ NULL.

(** An allocator with two blocks left, at addresses 5 and 6, and the states
    after one and two installs from it. *)
Definition two_blocks : state := Build_state ∅ [5%positive; 6%positive] ∅ [].
Definition installed_once (instance fn user_data : Z) : state :=
  final_state (swiftvlc_log_set instance fn user_data two_blocks).
Definition installed_twice (i1 fn1 ud1 i2 fn2 ud2 : Z) : state :=
  final_state (swiftvlc_log_set i2 fn2 ud2 (installed_once i1 fn1 ud1)).

(** ** Basic facts about the C library model *)

Lemma length_write_chars buf cs :
  (length cs ≤ length buf)%nat → length (write_chars buf cs) = length buf.
Proof.
  intros Hle. unfold write_chars.
  rewrite length_app, length_fmap, length_drop. lia.
Qed.

Lemma c_string_terminated (cs : list byte) (rest : list (option byte)) :
  x00 ∉ cs → c_string ((Some <$> cs) ++ Some x00 :: rest) = Some cs.
Proof.
  induction cs as [|b cs IH]; intros Hnul; csimpl.
  - reflexivity.
  - destruct (Byte.eqb b x00) eqn:Hb.
    + apply Byte.byte_dec_bl in Hb. subst b. exfalso. apply Hnul. left.
    + rewrite IH; [reflexivity|]. intros Hin. apply Hnul. by right.
Qed.

(** The reader stops at the first terminator: what follows it in the array
    does not matter. *)
Lemma c_string_prefix (cs : list byte) (rest rest' : list (option byte)) :
  c_string ((Some <$> cs) ++ Some x00 :: rest)
  = c_string ((Some <$> cs) ++ Some x00 :: rest').
Proof.
  induction cs as [|b cs IH]; csimpl.
  - reflexivity.
  - destruct (Byte.eqb b x00); [reflexivity|]. by rewrite IH.
Qed.

Lemma vsnprintf_fits (buf : list (option byte)) n fmt args out :
  vformat fmt args = Some out → (length out < n)%nat →
  (vsnprintf buf n fmt args).1
  = (Some <$> out) ++ Some x00 :: drop (S (length out)) buf.
Proof.
  intros Hout Hlt. unfold vsnprintf. rewrite Hout.
  destruct n as [|m]; [lia|]. simpl.
  unfold write_chars. rewrite firstn_all2 by lia.
  rewrite fmap_app, length_app, <- app_assoc. simpl.
  by rewrite Nat.add_1_r.
Qed.

Lemma vsnprintf_truncates (buf : list (option byte)) m fmt args out :
  vformat fmt args = Some out → (m < length out)%nat → length buf = S m →
  (vsnprintf buf (S m) fmt args).1 = (Some <$> take m out) ++ [Some x00].
Proof.
  intros Hout Hlt Hbuf. unfold vsnprintf. rewrite Hout. simpl.
  unfold write_chars. rewrite fmap_app, length_app, length_take. simpl.
  rewrite drop_ge by lia. by rewrite app_nil_r.
Qed.

Lemma vsnprintf_in_bounds (buf : list (option byte)) fmt args :
  length (vsnprintf buf (length buf) fmt args).1 = length buf.
Proof.
  unfold vsnprintf. destruct (vformat fmt args) as [out|]; [|reflexivity].
  destruct (length buf) as [|m] eqn:Hlen; simpl; [exact Hlen|].
  rewrite length_write_chars; [exact Hlen|].
  rewrite length_app, length_take. simpl. lia.
Qed.

(** ** Running the shim's functions *)

Lemma bind_Done {A B} (m : M A) (k : A → M B) s a s' :
  m s = Done a s' → (m ≫= k) s = k a s'.
Proof. intros Hm. unfold mbind, M_bind. by rewrite Hm. Qed.

Lemma bind_Crash {A B} (m : M A) (k : A → M B) s f s' :
  m s = Crash f s' → (m ≫= k) s = Crash f s'.
Proof. intros Hm. unfold mbind, M_bind. by rewrite Hm. Qed.

Lemma malloc_block s a rest :
  pool s = a :: rest →
  malloc s
  = Done (Z.pos a)
      (Build_state (<[Z.pos a := Build_context None None]> (heap s)) rest
         (logger s) (trace s ++ [Emalloc (Z.pos a)])).
Proof. intros Hpool. unfold malloc. by rewrite Hpool. Qed.

Lemma store_callback_live s p c v :
  heap s !! p = Some c → p ≠ NULL →
  store_callback p v s
  = Done tt (set_heap (<[p := Build_context (Some v) (data c)]> (heap s)) s).
Proof.
  intros Hp Hnn. unfold store_callback.
  rewrite decide_False by done. by rewrite Hp.
Qed.

Lemma store_data_live s p c v :
  heap s !! p = Some c → p ≠ NULL →
  store_data p v s
  = Done tt (set_heap (<[p := Build_context (callback c) (Some v)]> (heap s)) s).
Proof.
  intros Hp Hnn. unfold store_data.
  rewrite decide_False by done. by rewrite Hp.
Qed.

Lemma load_field_live f s p c v :
  heap s !! p = Some c → p ≠ NULL → f c = Some v →
  load_field f p s = Done v s.
Proof.
  intros Hp Hnn Hf. unfold load_field.
  rewrite decide_False by done. by rewrite Hp, Hf.
Qed.

Lemma swiftvlc_log_set_alloc s a rest instance cb user_data :
  pool s = a :: rest →
  swiftvlc_log_set instance cb user_data s
  = Done (Z.pos a)
      (Build_state
         (<[Z.pos a := Build_context (Some cb) (Some user_data)]> (heap s))
         rest
         (<[instance := (fn_swiftvlc_log_bridge, Z.pos a)]> (logger s))
         (trace s ++ [Emalloc (Z.pos a);
                      Elibvlc_log_set instance fn_swiftvlc_log_bridge (Z.pos a)])).
Proof.
  intros Hpool. unfold swiftvlc_log_set.
  assert (Hnn : Z.pos a ≠ NULL) by (unfold NULL; lia).
  erewrite bind_Done by (by apply malloc_block).
  erewrite bind_Done
    by (apply store_callback_live; [apply lookup_insert_eq | exact Hnn]).
  erewrite bind_Done
    by (apply store_data_live; [apply lookup_insert_eq | exact Hnn]).
  unfold mbind, M_bind, libvlc_log_set, mret, M_ret, emit, set_logger, set_heap.
  cbn [heap pool logger trace callback data].
  by rewrite !insert_insert_eq, <- app_assoc.
Qed.

Lemma swiftvlc_log_set_oom s instance cb user_data :
  pool s = [] →
  swiftvlc_log_set instance cb user_data s
  = Crash NullDeref (emit (Emalloc NULL) s).
Proof.
  intros Hpool.
  unfold swiftvlc_log_set, mbind, M_bind, malloc. rewrite Hpool.
  unfold store_callback. by rewrite decide_True.
Qed.

Lemma swiftvlc_log_bridge_live s p fn user_data level ctx fmt args :
  heap s !! p = Some (Build_context (Some fn) (Some user_data)) →
  p ≠ NULL →
  swiftvlc_log_bridge p level ctx fmt args s
  = call_swiftvlc_log_cb fn user_data level (log_module ctx)
      (vsnprintf (replicate 1024 None) 1024 fmt args).1 s.
Proof.
  intros Hp Hnn. unfold swiftvlc_log_bridge.
  rewrite length_replicate.
  destruct (vsnprintf (replicate 1024 None) 1024 fmt args) as [buf ret].
  unfold libvlc_log_get_context, load_callback, load_data.
  erewrite bind_Done by (by eapply load_field_live).
  erewrite bind_Done by (by eapply load_field_live).
  reflexivity.
Qed.

Lemma call_swiftvlc_log_cb_nonnull s fn user_data level module message :
  fn ≠ NULL →
  call_swiftvlc_log_cb fn user_data level module message s
  = Done tt (emit (Eswiftvlc_log_cb fn user_data level module message) s).
Proof. intros Hfn. unfold call_swiftvlc_log_cb. by rewrite decide_False. Qed.

(** The trampoline either calls the stored callback once, with the stored
    user data, and changes nothing else, or faults without changing
    anything. *)
Lemma swiftvlc_log_bridge_cases s p level ctx fmt args :
  (∃ fn user_data,
      heap s !! p = Some (Build_context (Some fn) (Some user_data))
      ∧ swiftvlc_log_bridge p level ctx fmt args s
        = Done tt (emit (Eswiftvlc_log_cb fn user_data level (log_module ctx)
                           (vsnprintf (replicate 1024 None) 1024 fmt args).1) s))
  ∨ (∃ f, swiftvlc_log_bridge p level ctx fmt args s = Crash f s).
Proof.
  destruct (decide (p = NULL)) as [Hnull|Hnn].
  { right. exists NullDeref. unfold swiftvlc_log_bridge.
    destruct (vsnprintf _ _ fmt args) as [buf ret].
    apply bind_Crash. unfold load_callback, load_field. by rewrite decide_True. }
  destruct (heap s !! p) as [[[fn|] [ud|]]|] eqn:Hp.
  - destruct (decide (fn = NULL)) as [Hfn|Hfn].
    + right. exists NullCall. erewrite swiftvlc_log_bridge_live by done.
      unfold call_swiftvlc_log_cb. by rewrite decide_True.
    + left. exists fn, ud. split; [done|].
      erewrite swiftvlc_log_bridge_live by done.
      by apply call_swiftvlc_log_cb_nonnull.
  - right. exists IndeterminateRead. unfold swiftvlc_log_bridge.
    destruct (vsnprintf _ _ fmt args) as [buf ret].
    unfold libvlc_log_get_context, load_callback.
    erewrite bind_Done by (by eapply load_field_live).
    apply bind_Crash. unfold load_data, load_field.
    rewrite decide_False by done. by rewrite Hp.
  - right. exists IndeterminateRead. unfold swiftvlc_log_bridge.
    destruct (vsnprintf _ _ fmt args) as [buf ret].
    apply bind_Crash. unfold load_callback, load_field.
    rewrite decide_False by done. by rewrite Hp.
  - right. exists IndeterminateRead. unfold swiftvlc_log_bridge.
    destruct (vsnprintf _ _ fmt args) as [buf ret].
    apply bind_Crash. unfold load_callback, load_field.
    rewrite decide_False by done. by rewrite Hp.
  - right. exists DanglingAccess. unfold swiftvlc_log_bridge.
    destruct (vsnprintf _ _ fmt args) as [buf ret].
    apply bind_Crash. unfold load_callback, load_field.
    rewrite decide_False by done. by rewrite Hp.
Qed.

Lemma libvlc_log_frame instance ev s s' :
  libvlc_log instance ev s = Done tt s' →
  heap s' = heap s ∧ pool s' = pool s ∧ logger s' = logger s.
Proof.
  unfold libvlc_log.
  destruct (logger s !! instance) as [[[|a] p]|]; intros Hrun.
  - destruct (swiftvlc_log_bridge_cases s p (ev_level ev) (ev_ctx ev)
                (ev_fmt ev) (ev_args ev)) as [(fn & ud & _ & Hb)|[f Hb]];
      rewrite Hb in Hrun; [|discriminate].
    injection Hrun as <-. done.
  - injection Hrun as <-. done.
  - injection Hrun as <-. done.
Qed.

Lemma libvlc_logs_frame evs s s' :
  libvlc_logs evs s = Done tt s' →
  heap s' = heap s ∧ pool s' = pool s ∧ logger s' = logger s.
Proof.
  revert s. induction evs as [|[instance ev] evs IH]; intros s Hrun.
  - injection Hrun as <-. done.
  - cbn [libvlc_logs] in Hrun. unfold mbind, M_bind in Hrun.
    destruct (libvlc_log instance ev s) as [[] s1|] eqn:H1; [|discriminate].
    apply libvlc_log_frame in H1 as (Hh & Hp & Hl).
    apply IH in Hrun as (-> & -> & ->). done.
Qed.

Lemma libvlc_log_registered instance ev s p fn user_data :
  logger s !! instance = Some (fn_swiftvlc_log_bridge, p) →
  heap s !! p = Some (Build_context (Some fn) (Some user_data)) →
  p ≠ NULL →
  libvlc_log instance ev s
  = call_swiftvlc_log_cb fn user_data (ev_level ev) (log_module (ev_ctx ev))
      (vsnprintf (replicate 1024 None) 1024 (ev_fmt ev) (ev_args ev)).1 s.
Proof.
  intros Hreg Hp Hnn. unfold libvlc_log. rewrite Hreg.
  by apply swiftvlc_log_bridge_live.
Qed.

Lemma libvlc_logs_unregistered instance evs s :
  logger s !! instance = None →
  libvlc_logs ((λ ev, (instance, ev)) <$> evs) s = Done tt s.
Proof.
  intros Hreg. induction evs as [|ev evs IH]; [reflexivity|].
  csimpl. erewrite bind_Done; [exact IH|].
  unfold libvlc_log. by rewrite Hreg.
Qed.

Lemma swiftvlc_log_unset_live s instance context :
  context ≠ NULL → is_Some (heap s !! context) →
  swiftvlc_log_unset instance context s
  = Done tt
      (Build_state (delete context (heap s)) (Z.to_pos context :: pool s)
         (delete instance (logger s))
         (trace s ++ [Elibvlc_log_unset instance; Efree context])).
Proof.
  intros Hnn [c Hc]. unfold swiftvlc_log_unset.
  erewrite bind_Done by reflexivity.
  unfold free. rewrite decide_False by done.
  cbn [heap emit set_logger]. rewrite Hc.
  unfold emit, set_pool, set_heap. cbn [heap pool logger trace].
  by rewrite <- app_assoc.
Qed.

(** What [vsnprintf] leaves in an array of [S m] indeterminate cells when it
    is told the array's size: the first [m] characters of the formatter's
    output (all of it when shorter), the terminator, and the cells after it
    untouched. *)
Lemma vsnprintf_fresh_array m fmt args out :
  vformat fmt args = Some out →
  (vsnprintf (replicate (S m) None) (S m) fmt args).1
  = (Some <$> take m out) ++ Some x00
      :: replicate (m - length (take m out)) None.
Proof.
  intros Hout. unfold vsnprintf. rewrite Hout. cbn [fst].
  unfold write_chars. rewrite fmap_app, length_app, <- app_assoc.
  rewrite drop_replicate. csimpl. do 3 f_equal. lia.
Qed.

(** ** The claims *)

(** C1. When the formatter accepts [fmt]/[args] and its output [out] fits
    (at most 1023 characters, which leaves room for the terminator), the
    array [swiftvlc_log_bridge] passes to the callback holds [out] followed
    by the terminator; the string the callback reads from it is the string
    [vsnprintf] leaves in any array large enough for [out], and is [out]
    itself when [out] contains no terminator. *)
Theorem log_bridge_message_roundtrip s p fn user_data level ctx fmt args out :
  heap s !! p = Some (Build_context (Some fn) (Some user_data)) →
  p ≠ NULL → fn ≠ NULL →
  vformat fmt args = Some out →
  (length out ≤ 1023)%nat →
  ∃ message,
    swiftvlc_log_bridge p level ctx fmt args s
    = Done tt (emit (Eswiftvlc_log_cb fn user_data level (log_module ctx) message) s)
    ∧ message = (Some <$> out) ++ Some x00 :: replicate (1023 - length out) None
    ∧ (∀ n, (length out < n)%nat →
         c_string message = c_string (vsnprintf (replicate n None) n fmt args).1)
    ∧ (x00 ∉ out → c_string message = Some out).
Proof.
  intros Hp Hnn Hfn Hout Hlen.
  exists (vsnprintf (replicate 1024 None) 1024 fmt args).1.
  assert (Hmsg : (vsnprintf (replicate 1024 None) 1024 fmt args).1
                 = (Some <$> out) ++ Some x00 :: replicate (1023 - length out) None).
  { rewrite (vsnprintf_fits _ _ _ _ out) by (done || lia).
    rewrite drop_replicate. reflexivity. }
  split; [|split; [exact Hmsg|split]].
  - rewrite (swiftvlc_log_bridge_live s p fn user_data) by done.
    by apply call_swiftvlc_log_cb_nonnull.
  - intros n Hn. rewrite Hmsg, (vsnprintf_fits _ n _ _ out) by done.
    apply c_string_prefix.
  - intros Hnul. rewrite Hmsg. by apply c_string_terminated.
Qed.

(** C2. When the formatter's output is longer than 1023 characters, the
    array passed to the callback is the first 1023 characters of that output
    followed by the terminator: 1024 cells, the size of [buf], so nothing
    was stored past its end. *)
Theorem log_bridge_message_truncated s p fn user_data level ctx fmt args out :
  heap s !! p = Some (Build_context (Some fn) (Some user_data)) →
  p ≠ NULL → fn ≠ NULL →
  vformat fmt args = Some out →
  (1023 < length out)%nat →
  ∃ message,
    swiftvlc_log_bridge p level ctx fmt args s
    = Done tt (emit (Eswiftvlc_log_cb fn user_data level (log_module ctx) message) s)
    ∧ message = (Some <$> take 1023 out) ++ [Some x00]
    ∧ length message = 1024%nat.
Proof.
  intros Hp Hnn Hfn Hout Hlen.
  exists (vsnprintf (replicate 1024 None) 1024 fmt args).1.
  split; [|split].
  - rewrite (swiftvlc_log_bridge_live s p fn user_data) by done.
    by apply call_swiftvlc_log_cb_nonnull.
  - apply vsnprintf_truncates; [done|lia|by rewrite length_replicate].
  - rewrite <- (length_replicate 1024 (@None byte)) at 1.
    rewrite vsnprintf_in_bounds. by rewrite !length_replicate.
Qed.

(** C3. When the allocator has a block to give, at address [a],
    [swiftvlc_log_set instance cb user_data] leaves at [a] a context holding
    exactly [cb] and [user_data], registers [swiftvlc_log_bridge] for
    [instance] with [a] as its opaque state, and returns [a]. *)
Theorem log_set_installs_context s a rest instance cb user_data :
  pool s = a :: rest →
  ∃ s',
    swiftvlc_log_set instance cb user_data s = Done (Z.pos a) s'
    ∧ heap s' = <[Z.pos a := Build_context (Some cb) (Some user_data)]> (heap s)
    ∧ logger s' = <[instance := (fn_swiftvlc_log_bridge, Z.pos a)]> (logger s)
    ∧ pool s' = rest
    ∧ trace s' = trace s ++ [Emalloc (Z.pos a);
                             Elibvlc_log_set instance fn_swiftvlc_log_bridge (Z.pos a)].
Proof.
  intros Hpool. eexists. split; [by apply swiftvlc_log_set_alloc|]. done.
Qed.

(** C4. On a log event, with [p] a live context holding a callback [fn]
    and user data [user_data], the trampoline calls [fn] once with
    [user_data], the event's level, the record's module name (null when the
    record has none) and the array [vsnprintf] filled; the record's header
    and line do not reach the callback. The library's delivery of an event
    to an instance so registered does exactly this. The array is the
    formatted message: when the formatter produces [out], it holds the
    first 1023 characters of [out] (all of [out] when shorter), then the
    terminator, then cells never written; so the string the callback reads
    is [out] itself whenever [out] has at most 1023 characters and no
    terminator inside. *)
Theorem log_bridge_callback_arguments s p fn user_data level ctx fmt args :
  heap s !! p = Some (Build_context (Some fn) (Some user_data)) →
  p ≠ NULL → fn ≠ NULL →
  swiftvlc_log_bridge p level ctx fmt args s
  = Done tt (emit (Eswiftvlc_log_cb fn user_data level (log_module ctx)
                     (vsnprintf (replicate 1024 None) 1024 fmt args).1) s)
  ∧ (∀ header line,
       swiftvlc_log_bridge p level (Build_log (log_module ctx) header line) fmt args s
       = swiftvlc_log_bridge p level ctx fmt args s)
  ∧ (∀ instance,
       logger s !! instance = Some (fn_swiftvlc_log_bridge, p) →
       libvlc_log instance (Build_event level ctx fmt args) s
       = swiftvlc_log_bridge p level ctx fmt args s)
  ∧ (∀ out,
       vformat fmt args = Some out →
       swiftvlc_log_bridge p level ctx fmt args s
       = Done tt (emit (Eswiftvlc_log_cb fn user_data level (log_module ctx)
                          ((Some <$> take 1023 out) ++ Some x00
                             :: replicate (1023 - length (take 1023 out)) None)) s)
         ∧ ((length out ≤ 1023)%nat → x00 ∉ out →
            c_string (vsnprintf (replicate 1024 None) 1024 fmt args).1
            = Some out)).
Proof.
  intros Hp Hnn Hfn.
  assert (Hrun : swiftvlc_log_bridge p level ctx fmt args s
                 = Done tt (emit (Eswiftvlc_log_cb fn user_data level (log_module ctx)
                                    (vsnprintf (replicate 1024 None) 1024 fmt args).1) s)).
  { rewrite (swiftvlc_log_bridge_live s p fn user_data) by done.
    by apply call_swiftvlc_log_cb_nonnull. }
  split; [exact Hrun|split; [|split]].
  - intros header line.
    by rewrite !(swiftvlc_log_bridge_live s p fn user_data).
  - intros instance Hreg. unfold libvlc_log. by rewrite Hreg.
  - intros out Hout. split.
    + rewrite Hrun. by rewrite (vsnprintf_fresh_array 1023 fmt args out).
    + intros Hlen Hnul.
      rewrite (vsnprintf_fresh_array 1023 fmt args out) by done.
      rewrite firstn_all2 by lia. by apply c_string_terminated.
Qed.

(** C5. [swiftvlc_log_unset instance context], for a live [context], first
    unregisters the handler of [instance] and then frees [context], in that
    order in the trace. Afterwards no log event on [instance] calls the
    callback: any run of such events returns and leaves the state, trace
    included, as it was. Log events are atomic steps here, so none is in
    flight while the handler is being unregistered. *)
Theorem log_unset_then_silent s instance context :
  context ≠ NULL → is_Some (heap s !! context) →
  ∃ s',
    swiftvlc_log_unset instance context s = Done tt s'
    ∧ trace s' = trace s ++ [Elibvlc_log_unset instance; Efree context]
    ∧ logger s' !! instance = None
    ∧ heap s' !! context = None
    ∧ ∀ evs, libvlc_logs ((λ ev, (instance, ev)) <$> evs) s' = Done tt s'.
Proof.
  intros Hnn Hlive. eexists.
  split; [by apply swiftvlc_log_unset_live|].
  cbn [trace logger heap].
  split; [done|]. split; [apply lookup_delete_eq|].
  split; [apply lookup_delete_eq|].
  intros evs. apply libvlc_logs_unregistered. apply lookup_delete_eq.
Qed.

(** C6, as the code has it. When the allocator has nothing left,
    [swiftvlc_log_set] reports no error: it stores the callback through the
    null pointer [malloc] returned, which faults. The fault precedes the
    call of [libvlc_log_set], so no handler has been registered. *)
Theorem log_set_alloc_failure_faults s instance cb user_data :
  pool s = [] →
  ∃ s',
    swiftvlc_log_set instance cb user_data s = Crash NullDeref s'
    ∧ logger s' = logger s
    ∧ heap s' = heap s
    ∧ trace s' = trace s ++ [Emalloc NULL].
Proof.
  intros Hpool. eexists. split; [by apply swiftvlc_log_set_oom|]. done.
Qed.

(** C7. After an install with null user data and a callback [fn], and
    after any run of log events that returns, a log event on the instance
    calls [fn] with null as user data. *)
Theorem log_set_null_user_data s instance fn handle s1 evs s' :
  swiftvlc_log_set instance fn NULL s = Done handle s1 →
  fn ≠ NULL →
  libvlc_logs evs s1 = Done tt s' →
  ∀ ev, ∃ message,
    libvlc_log instance ev s'
    = Done tt (emit (Eswiftvlc_log_cb fn NULL (ev_level ev)
                       (log_module (ev_ctx ev)) message) s').
Proof.
  intros Hset Hfn Hrun ev.
  destruct (pool s) as [|a rest] eqn:Hpool.
  { by rewrite swiftvlc_log_set_oom in Hset. }
  rewrite (swiftvlc_log_set_alloc s a rest) in Hset by done.
  injection Hset as <- <-.
  apply libvlc_logs_frame in Hrun as (Hheap & _ & Hlogger).
  cbn [heap logger] in Hheap, Hlogger.
  eexists.
  rewrite (libvlc_log_registered instance ev s' (Z.pos a) fn NULL).
  - by apply call_swiftvlc_log_cb_nonnull.
  - rewrite Hlogger. apply lookup_insert_eq.
  - rewrite Hheap. apply lookup_insert_eq.
  - unfold NULL. lia.
Qed.

(** C8. A call of the trampoline that returns has appended one call of
    the stored callback to the trace and changed nothing else: the heap
    (so the context), the allocator and the registrations are as before.
    A call that faults has changed nothing. The array [buf] is a local of
    the function: once it returns, the state holds no trace of it but the
    record of the call it was passed to. *)
Theorem log_bridge_frame s p level ctx fmt args :
  match swiftvlc_log_bridge p level ctx fmt args s with
  | Done _ s' =>
      heap s' = heap s ∧ pool s' = pool s ∧ logger s' = logger s
      ∧ ∃ fn user_data message,
          heap s !! p = Some (Build_context (Some fn) (Some user_data))
          ∧ trace s' = trace s ++ [Eswiftvlc_log_cb fn user_data level
                                     (log_module ctx) message]
  | Crash _ s' => s' = s
  end.
Proof.
  destruct (swiftvlc_log_bridge_cases s p level ctx fmt args)
    as [(fn & ud & Hp & ->)|[f ->]]; [|reflexivity].
  cbn [heap pool logger trace emit]. repeat split. eauto.
Qed.

(** C9. [swiftvlc_log_set] stores whatever callback it is given, a null
    one included, and returns a handle; after an install with a null
    callback, a log event on the instance makes the trampoline call through
    the null function pointer. *)
Theorem log_set_null_callback s a rest instance cb user_data :
  pool s = a :: rest →
  ∃ s',
    swiftvlc_log_set instance cb user_data s = Done (Z.pos a) s'
    ∧ heap s' !! Z.pos a = Some (Build_context (Some cb) (Some user_data))
    ∧ logger s' !! instance = Some (fn_swiftvlc_log_bridge, Z.pos a)
    ∧ (cb = NULL → ∀ ev, libvlc_log instance ev s' = Crash NullCall s').
Proof.
  intros Hpool. eexists. split; [by apply swiftvlc_log_set_alloc|].
  cbn [heap logger].
  split; [apply lookup_insert_eq|]. split; [apply lookup_insert_eq|].
  intros -> ev.
  erewrite libvlc_log_registered;
    [|apply lookup_insert_eq|apply lookup_insert_eq|unfold NULL; lia].
  unfold call_swiftvlc_log_cb. by rewrite decide_True.
Qed.

(** C10. [swiftvlc_log_unset instance NULL] returns: it unregisters the
    handler of [instance], and [free(NULL)] releases nothing, so the heap
    and the allocator are as before. *)
Theorem log_unset_null_context s instance :
  swiftvlc_log_unset instance NULL s
  = Done tt (Build_state (heap s) (pool s) (delete instance (logger s))
               (trace s ++ [Elibvlc_log_unset instance; Efree NULL])).
Proof.
  unfold swiftvlc_log_unset. erewrite bind_Done by reflexivity.
  unfold free. rewrite decide_True by done.
  unfold emit, set_logger. cbn [heap pool logger trace].
  by rewrite <- app_assoc.
Qed.

(** ** Further properties of install, uninstall and the trampoline *)

Lemma swiftvlc_log_set_returns s instance cb user_data handle s' :
  swiftvlc_log_set instance cb user_data s = Done handle s' →
  ∃ a rest,
    pool s = a :: rest ∧ handle = Z.pos a
    ∧ s' = Build_state
             (<[Z.pos a := Build_context (Some cb) (Some user_data)]> (heap s))
             rest
             (<[instance := (fn_swiftvlc_log_bridge, Z.pos a)]> (logger s))
             (trace s ++ [Emalloc (Z.pos a);
                          Elibvlc_log_set instance fn_swiftvlc_log_bridge (Z.pos a)]).
Proof.
  intros Hset. destruct (pool s) as [|a rest] eqn:Hpool.
  - by rewrite swiftvlc_log_set_oom in Hset.
  - rewrite (swiftvlc_log_set_alloc s a rest) in Hset by done.
    injection Hset as <- <-. by exists a, rest.
Qed.

Lemma swiftvlc_log_unset_dead s instance context :
  context ≠ NULL → heap s !! context = None →
  swiftvlc_log_unset instance context s
  = Crash InvalidFree
      (Build_state (heap s) (pool s) (delete instance (logger s))
         (trace s ++ [Elibvlc_log_unset instance])).
Proof.
  intros Hnn Hdead. unfold swiftvlc_log_unset.
  erewrite bind_Done by reflexivity.
  unfold free. rewrite decide_False by done.
  cbn [heap emit set_logger]. by rewrite Hdead.
Qed.



Lemma c_string_stops (cs : list byte) (rest : list (option byte)) :
  ∃ str, c_string ((Some <$> cs) ++ Some x00 :: rest) = Some str
         ∧ str `prefix_of` cs ∧ x00 ∉ str.
Proof.
  induction cs as [|b cs (str & Hstr & Hpre & Hnul)]; csimpl.
  - exists []. split; [done|]. split; [done|]. apply not_elem_of_nil.
  - destruct (Byte.eqb b x00) eqn:Hb.
    + exists []. split; [done|]. split; [apply prefix_nil|apply not_elem_of_nil].
    + exists (b :: str). rewrite Hstr. split; [done|].
      split; [by apply prefix_cons|].
      apply not_elem_of_cons. split; [|done].
      intros <-. by rewrite (Byte.byte_dec_lb (eq_refl x00)) in Hb.
Qed.

Lemma vsnprintf_written (buf : list (option byte)) m fmt args out :
  vformat fmt args = Some out →
  (vsnprintf buf (S m) fmt args).1
  = (Some <$> take m out) ++ Some x00 :: drop (S (length (take m out))) buf.
Proof.
  intros Hout. unfold vsnprintf. rewrite Hout. simpl.
  unfold write_chars. rewrite fmap_app, length_app, <- app_assoc. simpl.
  by rewrite Nat.add_1_r.
Qed.

Lemma registrations_live_frame s s' :
  heap s' = heap s → logger s' = logger s →
  registrations_live s → registrations_live s'.
Proof. intros Hh Hl Hs instance p. rewrite Hh, Hl. apply Hs. Qed.

Lemma registrations_live_none s :
  logger s = ∅ → registrations_live s.
Proof. intros Hl instance p. by rewrite Hl, lookup_empty. Qed.

Lemma registrations_live_install s instance cb user_data handle s' :
  registrations_live s → cb ≠ NULL →
  swiftvlc_log_set instance cb user_data s = Done handle s' →
  registrations_live s'.
Proof.
  intros Hs Hcb (a & rest & _ & -> & ->)%swiftvlc_log_set_returns j p.
  cbn [heap logger]. intros Hreg.
  destruct (decide (p = Z.pos a)) as [->|Hp].
  - split; [unfold NULL; lia|]. exists cb, user_data.
    by rewrite lookup_insert_eq.
  - destruct (decide (j = instance)) as [->|Hj].
    + rewrite lookup_insert_eq in Hreg. congruence.
    + rewrite lookup_insert_ne in Hreg by done.
      destruct (Hs j p Hreg) as (Hnn & fn & ud & Hlive & Hfn).
      split; [done|]. exists fn, ud. by rewrite lookup_insert_ne.
Qed.

Lemma libvlc_log_live instance ev s :
  registrations_live s → ∃ s', libvlc_log instance ev s = Done tt s'.
Proof.
  intros Hs. unfold libvlc_log.
  destruct (logger s !! instance) as [[[|a] p]|] eqn:Hreg; [|by eauto..].
  destruct (Hs instance p Hreg) as (Hnn & fn & ud & Hp & Hfn).
  rewrite (swiftvlc_log_bridge_live s p fn ud) by done.
  rewrite call_swiftvlc_log_cb_nonnull by done. eauto.
Qed.

(** X1. [swiftvlc_log_set] has two outcomes only. Either it returns, and
    then the handle is not null, the block it designates holds the callback
    and user data given, and the trampoline is registered with it; or it
    faults on the null store because the allocator had nothing left, with
    no registration changed. It never returns a null handle. *)
Theorem log_set_outcomes s instance cb user_data :
  match swiftvlc_log_set instance cb user_data s with
  | Done handle s' =>
      handle ≠ NULL
      ∧ heap s' !! handle = Some (Build_context (Some cb) (Some user_data))
      ∧ logger s' !! instance = Some (fn_swiftvlc_log_bridge, handle)
  | Crash f s' =>
      f = NullDeref ∧ pool s = [] ∧ heap s' = heap s ∧ logger s' = logger s
  end.
Proof.
  destruct (pool s) as [|a rest] eqn:Hpool.
  - by rewrite swiftvlc_log_set_oom.
  - rewrite (swiftvlc_log_set_alloc s a rest) by done. cbn [heap logger].
    split; [unfold NULL; lia|]. split; apply lookup_insert_eq.
Qed.


(** X3. Install, any run of log events that returns, then uninstall with
    the handle install returned: the uninstall returns, and heap, allocator
    and registrations are what they were before the install, provided the
    block was a fresh one and the instance had no handler before. *)
Theorem log_set_unset_round_trip s instance cb user_data handle s1 evs s2 :
  swiftvlc_log_set instance cb user_data s = Done handle s1 →
  heap s !! handle = None →
  logger s !! instance = None →
  libvlc_logs evs s1 = Done tt s2 →
  ∃ s3,
    swiftvlc_log_unset instance handle s2 = Done tt s3
    ∧ heap s3 = heap s ∧ pool s3 = pool s ∧ logger s3 = logger s.
Proof.
  intros (a & rest & Hpool & -> & ->)%swiftvlc_log_set_returns Hfresh Hnone
    (Hheap & Hpl & Hlog)%libvlc_logs_frame.
  cbn [heap pool logger] in Hheap, Hpl, Hlog.
  eexists. split.
  - apply swiftvlc_log_unset_live; [unfold NULL; lia|].
    rewrite Hheap, lookup_insert_eq. by eexists.
  - cbn [heap pool logger]. rewrite Hheap, Hpl, Hlog, Hpool.
    rewrite delete_insert_eq, delete_insert_eq.
    by rewrite !delete_id.
Qed.

(** X4. Uninstalling twice with the same handle: the first call returns,
    the second is a double free. *)
Theorem log_unset_twice_faults s instance context :
  context ≠ NULL → is_Some (heap s !! context) →
  ∃ s1 s2,
    swiftvlc_log_unset instance context s = Done tt s1
    ∧ swiftvlc_log_unset instance context s1 = Crash InvalidFree s2.
Proof.
  intros Hnn Hlive. eexists _, _. split.
  - by apply swiftvlc_log_unset_live.
  - apply swiftvlc_log_unset_dead; [done|]. cbn [heap]. apply lookup_delete_eq.
Qed.

(** X5. Uninstalling with a handle that designates no live block (and is
    not null) faults in [free]; by then the handler of the instance has
    already been unregistered, and the heap is untouched. *)
Theorem log_unset_bad_handle s instance context :
  context ≠ NULL → heap s !! context = None →
  ∃ s',
    swiftvlc_log_unset instance context s = Crash InvalidFree s'
    ∧ logger s' !! instance = None
    ∧ heap s' = heap s
    ∧ trace s' = trace s ++ [Elibvlc_log_unset instance].
Proof.
  intros Hnn Hdead. eexists. split; [by apply swiftvlc_log_unset_dead|].
  cbn [heap logger trace]. split; [apply lookup_delete_eq|done].
Qed.

(** X6. A second install on the same instance, without an uninstall in
    between, replaces the registration and leaks the first context: log
    events reach the second callback only, and after the uninstall of the
    second handle the first block is still allocated while nothing is
    registered. *)
Theorem log_set_twice_leaks s instance cb1 ud1 cb2 ud2 h1 h2 s1 s2 :
  swiftvlc_log_set instance cb1 ud1 s = Done h1 s1 →
  swiftvlc_log_set instance cb2 ud2 s1 = Done h2 s2 →
  h1 ≠ h2 → cb2 ≠ NULL →
  heap s2 !! h1 = Some (Build_context (Some cb1) (Some ud1))
  ∧ logger s2 !! instance = Some (fn_swiftvlc_log_bridge, h2)
  ∧ (∀ ev, libvlc_log instance ev s2 = Done tt (emit (callback_of cb2 ud2 ev) s2))
  ∧ ∃ s3,
      swiftvlc_log_unset instance h2 s2 = Done tt s3
      ∧ heap s3 !! h1 = Some (Build_context (Some cb1) (Some ud1))
      ∧ logger s3 !! instance = None.
Proof.
  intros (a & r1 & _ & -> & ->)%swiftvlc_log_set_returns
    (b & r2 & _ & -> & ->)%swiftvlc_log_set_returns Hne Hcb.
  cbn [heap logger].
  assert (Hb : Z.pos b ≠ NULL) by (unfold NULL; lia).
  split; [by rewrite lookup_insert_ne, lookup_insert_eq|].
  split; [apply lookup_insert_eq|]. split.
  - intros ev.
    erewrite libvlc_log_registered;
      [|apply lookup_insert_eq|apply lookup_insert_eq|done].
    by apply call_swiftvlc_log_cb_nonnull.
  - eexists. split.
    + apply swiftvlc_log_unset_live; [done|].
      cbn [heap]. rewrite lookup_insert_eq. by eexists.
    + cbn [heap logger]. split; [|apply lookup_delete_eq].
      by rewrite lookup_delete_ne, lookup_insert_ne, lookup_insert_eq.
Qed.

(** X7. Uninstalling on another instance than the one the handle was
    installed on returns, but leaves the trampoline registered with a freed
    context: the next log event on the first instance reads freed memory. *)
Theorem log_unset_wrong_instance s i1 i2 cb user_data handle s1 :
  swiftvlc_log_set i1 cb user_data s = Done handle s1 →
  i2 ≠ i1 →
  ∃ s2,
    swiftvlc_log_unset i2 handle s1 = Done tt s2
    ∧ logger s2 !! i1 = Some (fn_swiftvlc_log_bridge, handle)
    ∧ ∀ ev, libvlc_log i1 ev s2 = Crash DanglingAccess s2.
Proof.
  intros (a & rest & _ & -> & ->)%swiftvlc_log_set_returns Hne.
  assert (Ha : Z.pos a ≠ NULL) by (unfold NULL; lia).
  eexists. split.
  { apply swiftvlc_log_unset_live; [done|].
    cbn [heap]. rewrite lookup_insert_eq. by eexists. }
  cbn [logger].
  assert (Hreg : delete i2 (<[i1:=(fn_swiftvlc_log_bridge, Z.pos a)]> (logger s)) !! i1
                 = Some (fn_swiftvlc_log_bridge, Z.pos a))
    by (by rewrite lookup_delete_ne, lookup_insert_eq).
  split; [exact Hreg|]. intros ev.
  unfold libvlc_log. cbn [logger]. rewrite Hreg.
  unfold swiftvlc_log_bridge.
  destruct (vsnprintf _ _ (ev_fmt ev) (ev_args ev)) as [buf ret].
  apply bind_Crash. unfold load_callback, load_field.
  rewrite decide_False by done. cbn [heap]. by rewrite lookup_delete_eq.
Qed.

(** X8. A run of log events on an instance whose registration is live
    calls the callback once per event, in the order of the events, each
    call with the stored user data and the event's own level, module name
    and message; nothing else changes. The message of each call is that
    event's formatted text: the first 1023 characters the formatter
    produces for the event, then the terminator. *)
Theorem log_events_one_callback_each s instance p fn user_data evs :
  logger s !! instance = Some (fn_swiftvlc_log_bridge, p) →
  heap s !! p = Some (Build_context (Some fn) (Some user_data)) →
  p ≠ NULL → fn ≠ NULL →
  libvlc_logs ((λ ev, (instance, ev)) <$> evs) s
  = Done tt (Build_state (heap s) (pool s) (logger s)
               (trace s ++ (callback_of fn user_data <$> evs)))
  ∧ (∀ ev out,
       vformat (ev_fmt ev) (ev_args ev) = Some out →
       callback_of fn user_data ev
       = Eswiftvlc_log_cb fn user_data (ev_level ev) (log_module (ev_ctx ev))
           ((Some <$> take 1023 out) ++ Some x00
              :: replicate (1023 - length (take 1023 out)) None)).
Proof.
  intros Hreg Hp Hnn Hfn. split.
  - revert s Hreg Hp.
    induction evs as [|ev evs IH]; intros s Hreg Hp; csimpl.
    + rewrite app_nil_r. by destruct s.
    + erewrite bind_Done.
      2:{ erewrite libvlc_log_registered by done.
          by apply call_swiftvlc_log_cb_nonnull. }
      rewrite IH by done. cbn [heap pool logger trace emit].
      by rewrite <- app_assoc.
  - intros ev out Hout. unfold callback_of.
    by rewrite (vsnprintf_fresh_array 1023 _ _ out).
Qed.

(** X9. Whatever the formatter's output, the array the callback receives
    holds a terminated string: reading it stops inside the array, and the
    string read has at most 1023 characters and is a prefix of the
    formatter's output. *)
Theorem log_bridge_message_terminated s p fn user_data level ctx fmt args out :
  heap s !! p = Some (Build_context (Some fn) (Some user_data)) →
  p ≠ NULL → fn ≠ NULL →
  vformat fmt args = Some out →
  ∃ message str,
    swiftvlc_log_bridge p level ctx fmt args s
    = Done tt (emit (Eswiftvlc_log_cb fn user_data level (log_module ctx) message) s)
    ∧ length message = 1024%nat
    ∧ c_string message = Some str
    ∧ str `prefix_of` out
    ∧ (length str ≤ 1023)%nat.
Proof.
  intros Hp Hnn Hfn Hout.
  destruct (c_string_stops (take 1023 out)
              (drop (S (length (take 1023 out))) (replicate 1024 None)))
    as (str & Hstr & Hpre & _).
  exists (vsnprintf (replicate 1024 None) 1024 fmt args).1, str.
  split; [|split; [|split; [|split]]].
  - rewrite (swiftvlc_log_bridge_live s p fn user_data) by done.
    by apply call_swiftvlc_log_cb_nonnull.
  - rewrite <- (length_replicate 1024 (@None byte)) at 1.
    rewrite vsnprintf_in_bounds. by rewrite !length_replicate.
  - by rewrite (vsnprintf_written _ _ _ _ out).
  - etrans; [exact Hpre|]. apply prefix_take.
  - apply prefix_length in Hpre. rewrite length_take in Hpre. lia.
Qed.

(** X10. While every registration of the trampoline is live, delivering
    log events never faults: any run of events, on any instances, returns,
    and every registration is still live afterwards. *)
Theorem log_events_never_fault s evs :
  registrations_live s →
  ∃ s', libvlc_logs evs s = Done tt s' ∧ registrations_live s'.
Proof.
  revert s. induction evs as [|[instance ev] evs IH]; intros s Hs.
  - exists s. done.
  - destruct (libvlc_log_live instance ev s Hs) as [s1 H1].
    destruct (libvlc_log_frame _ _ _ _ H1) as (Hh & _ & Hl).
    destruct (IH s1) as (s' & Hrun & Hs');
      [by apply (registrations_live_frame s)|].
    exists s'. split; [|done].
    cbn [libvlc_logs]. by erewrite bind_Done.
Qed.

(** X11. An install with a callback that is not null keeps every
    registration live. *)
Theorem log_set_keeps_registrations_live s instance cb user_data handle s' :
  registrations_live s → cb ≠ NULL →
  swiftvlc_log_set instance cb user_data s = Done handle s' →
  registrations_live s'.
Proof. apply registrations_live_install. Qed.


(** X13. Installs on two instances do not interfere: each instance's log
    events reach its own callback with its own user data; after the first
    instance is uninstalled the second still delivers; and after both
    uninstalls, in the order of the installs, both blocks are freed and
    neither instance has a handler. *)
Theorem log_two_instances_independent
    s i1 i2 cb1 ud1 cb2 ud2 h1 h2 s1 s2 :
  swiftvlc_log_set i1 cb1 ud1 s = Done h1 s1 →
  swiftvlc_log_set i2 cb2 ud2 s1 = Done h2 s2 →
  i1 ≠ i2 → h1 ≠ h2 → cb1 ≠ NULL → cb2 ≠ NULL →
  (∀ ev, libvlc_log i1 ev s2 = Done tt (emit (callback_of cb1 ud1 ev) s2))
  ∧ (∀ ev, libvlc_log i2 ev s2 = Done tt (emit (callback_of cb2 ud2 ev) s2))
  ∧ ∃ s3 s4,
      swiftvlc_log_unset i1 h1 s2 = Done tt s3
      ∧ (∀ ev, libvlc_log i1 ev s3 = Done tt s3)
      ∧ (∀ ev, libvlc_log i2 ev s3 = Done tt (emit (callback_of cb2 ud2 ev) s3))
      ∧ swiftvlc_log_unset i2 h2 s3 = Done tt s4
      ∧ heap s4 !! h1 = None ∧ heap s4 !! h2 = None
      ∧ logger s4 !! i1 = None ∧ logger s4 !! i2 = None.
Proof.
  intros (a & r1 & _ & -> & ->)%swiftvlc_log_set_returns
    (b & r2 & _ & -> & ->)%swiftvlc_log_set_returns Hi Hh Hcb1 Hcb2.
  assert (Ha : Z.pos a ≠ NULL) by (unfold NULL; lia).
  assert (Hb : Z.pos b ≠ NULL) by (unfold NULL; lia).
  cbn [heap logger]. split; [|split].
  - intros ev. erewrite libvlc_log_registered; [|cbn [heap logger]..|exact Ha].
    + by apply call_swiftvlc_log_cb_nonnull.
    + by rewrite lookup_insert_ne, lookup_insert_eq.
    + by rewrite lookup_insert_ne, lookup_insert_eq.
  - intros ev. erewrite libvlc_log_registered; [|cbn [heap logger]..|exact Hb].
    + by apply call_swiftvlc_log_cb_nonnull.
    + apply lookup_insert_eq.
    + apply lookup_insert_eq.
  - eexists _, _. split.
    { apply swiftvlc_log_unset_live; [done|]. cbn [heap].
      rewrite lookup_insert_ne, lookup_insert_eq by done. by eexists. }
    split.
    { intros ev. unfold libvlc_log. cbn [logger].
      by rewrite lookup_delete_eq. }
    split.
    { intros ev. erewrite libvlc_log_registered; [|cbn [heap logger]..|exact Hb].
      + by apply call_swiftvlc_log_cb_nonnull.
      + by rewrite lookup_delete_ne, lookup_insert_eq.
      + by rewrite lookup_delete_ne, lookup_insert_eq. }
    split.
    { apply swiftvlc_log_unset_live; [done|]. cbn [heap].
      rewrite lookup_delete_ne, lookup_insert_eq by done. by eexists. }
    cbn [heap logger].
    rewrite !lookup_delete_eq.
    rewrite (lookup_delete_ne _ (Z.pos b) (Z.pos a)) by done.
    rewrite (lookup_delete_ne _ i2 i1) by done.
    by rewrite !lookup_delete_eq.
Qed.


End Bridge.

(** ** The claims at sample inputs *)

Lemma log_bridge_message_roundtrip_witness :
  ∃ message,
    swiftvlc_log_bridge mini_format 5 3 core_record
      (ev_fmt opened) (ev_args opened) (installed 77 9)
    = Done tt (emit (Eswiftvlc_log_cb 77 9 3 (Some (bytes "core")) message)
                 (installed 77 9))
    ∧ c_string message = Some (bytes "opened a.mkv (42%)").
Proof.
  destruct (log_bridge_message_roundtrip mini_format (installed 77 9) 5 77 9 3
              core_record (ev_fmt opened) (ev_args opened)
              (bytes "opened a.mkv (42%)"))
    as (message & Hrun & _ & _ & Hstr).
  - reflexivity.
  - discriminate.
  - discriminate.
  - reflexivity.
  - vm_compute. lia.
  - exists message. split; [exact Hrun|].
    apply Hstr. apply (bool_decide_unpack _). vm_compute. exact I.
Defined.

Lemma log_bridge_message_truncated_witness :
  ∃ message,
    swiftvlc_log_bridge mini_format 5 4 core_record
      (ev_fmt long_line) (ev_args long_line) (installed 77 9)
    = Done tt (emit (Eswiftvlc_log_cb 77 9 4 (Some (bytes "core")) message)
                 (installed 77 9))
    ∧ message = (Some <$> take 1023 (replicate 2000 "x"%byte)) ++ [Some x00]
    ∧ length message = 1024%nat.
Proof.
  apply (log_bridge_message_truncated mini_format (installed 77 9) 5 77 9 4
           core_record (ev_fmt long_line) (ev_args long_line)
           (replicate 2000 "x"%byte)).
  - reflexivity.
  - discriminate.
  - discriminate.
  - vm_compute. reflexivity.
  - rewrite length_replicate. lia.
Defined.

Lemma log_set_installs_context_witness :
  ∃ s',
    swiftvlc_log_set 1 77 9 one_block = Done 5 s'
    ∧ heap s' = <[5 := Build_context (Some 77) (Some 9)]> ∅
    ∧ logger s' = <[1 := (fn_swiftvlc_log_bridge, 5)]> ∅
    ∧ pool s' = []
    ∧ trace s' = [] ++ [Emalloc 5; Elibvlc_log_set 1 fn_swiftvlc_log_bridge 5].
Proof.
  apply (log_set_installs_context one_block 5%positive [] 1 77 9).
  reflexivity.
Defined.

Lemma log_bridge_callback_arguments_witness :
  swiftvlc_log_bridge mini_format 5 3 core_record
    (ev_fmt opened) (ev_args opened) (installed 77 9)
  = Done tt (emit (Eswiftvlc_log_cb 77 9 3 (Some (bytes "core"))
                     ((Some <$> bytes "opened a.mkv (42%)") ++ Some x00
                        :: replicate 1005 None))
               (installed 77 9))
  ∧ c_string (vsnprintf mini_format (replicate 1024 None) 1024
                (ev_fmt opened) (ev_args opened)).1
    = Some (bytes "opened a.mkv (42%)").
Proof.
  destruct (log_bridge_callback_arguments mini_format (installed 77 9) 5 77 9 3
              core_record (ev_fmt opened) (ev_args opened))
    as (_ & _ & _ & Hmsg).
  - reflexivity.
  - discriminate.
  - discriminate.
  - destruct (Hmsg (bytes "opened a.mkv (42%)")) as [Hrun Hstr];
      [reflexivity|].
    split; [exact Hrun|].
    apply Hstr; [vm_compute; lia|].
    apply (bool_decide_unpack _). vm_compute. exact I.
Defined.

Lemma log_unset_then_silent_witness :
  ∃ s',
    swiftvlc_log_unset 1 5 (installed 77 9) = Done tt s'
    ∧ trace s' = trace (installed 77 9) ++ [Elibvlc_log_unset 1; Efree 5]
    ∧ logger s' !! 1 = None
    ∧ heap s' !! 5 = None
    ∧ ∀ evs, libvlc_logs mini_format ((λ ev, (1, ev)) <$> evs) s' = Done tt s'.
Proof.
  apply (log_unset_then_silent mini_format (installed 77 9) 1 5).
  - discriminate.
  - exists (Build_context (Some 77) (Some 9)). reflexivity.
Defined.

Lemma log_set_alloc_failure_faults_witness :
  ∃ s',
    swiftvlc_log_set 1 77 9 out_of_memory = Crash NullDeref s'
    ∧ logger s' = logger out_of_memory
    ∧ heap s' = heap out_of_memory
    ∧ trace s' = trace out_of_memory ++ [Emalloc NULL].
Proof.
  apply (log_set_alloc_failure_faults out_of_memory 1 77 9). reflexivity.
Defined.

(** C6, as the spec has it, fails. With nothing left to allocate,
    [swiftvlc_log_set] does not return at all, with a null handle or any
    other: there is no failure it reports. *)
Lemma log_set_alloc_failure_counterexample :
  swiftvlc_log_set 1 77 9 out_of_memory
  = Crash NullDeref (emit (Emalloc NULL) out_of_memory)
  ∧ ¬ ∃ handle s', swiftvlc_log_set 1 77 9 out_of_memory = Done handle s'.
Proof.
  split; [reflexivity|]. intros (handle & s' & Hret). discriminate Hret.
Qed.

Lemma log_set_null_user_data_witness :
  ∃ message,
    libvlc_log mini_format 1 opened
      (final_state (libvlc_logs mini_format [(1, opened); (2, long_line)]
                      (installed 77 NULL)))
    = Done tt (emit (Eswiftvlc_log_cb 77 NULL 3 (Some (bytes "core")) message)
                 (final_state (libvlc_logs mini_format
                                 [(1, opened); (2, long_line)]
                                 (installed 77 NULL)))).
Proof.
  apply (log_set_null_user_data mini_format one_block 1 77 5
           (installed 77 NULL) [(1, opened); (2, long_line)] _
           ltac:(reflexivity) ltac:(discriminate)
           ltac:(vm_compute; reflexivity) opened).
Defined.

Lemma log_set_null_callback_witness :
  ∃ s',
    swiftvlc_log_set 1 NULL 9 one_block = Done 5 s'
    ∧ heap s' !! 5 = Some (Build_context (Some NULL) (Some 9))
    ∧ logger s' !! 1 = Some (fn_swiftvlc_log_bridge, 5)
    ∧ (NULL = NULL → ∀ ev, libvlc_log mini_format 1 ev s' = Crash NullCall s').
Proof.
  apply (log_set_null_callback mini_format one_block 5%positive [] 1 NULL 9).
  reflexivity.
Defined.

(** ** The further properties at sample inputs *)

Lemma registrations_live_installed : registrations_live (installed 77 9).
Proof.
  apply (registrations_live_install one_block 1 77 9 5).
  - by apply registrations_live_none.
  - discriminate.
  - reflexivity.
Defined.


Lemma log_set_unset_round_trip_witness :
  ∃ s3,
    swiftvlc_log_unset 1 5
      (final_state (libvlc_logs mini_format [(1, opened)] (installed 77 9)))
    = Done tt s3
    ∧ heap s3 = heap one_block ∧ pool s3 = pool one_block
    ∧ logger s3 = logger one_block.
Proof.
  apply (log_set_unset_round_trip mini_format one_block 1 77 9 5
           (installed 77 9) [(1, opened)]).
  - reflexivity.
  - reflexivity.
  - reflexivity.
  - vm_compute. reflexivity.
Defined.

Lemma log_unset_twice_faults_witness :
  ∃ s1 s2,
    swiftvlc_log_unset 1 5 (installed 77 9) = Done tt s1
    ∧ swiftvlc_log_unset 1 5 s1 = Crash InvalidFree s2.
Proof.
  apply (log_unset_twice_faults (installed 77 9) 1 5).
  - discriminate.
  - eexists. reflexivity.
Defined.

Lemma log_unset_bad_handle_witness :
  ∃ s',
    swiftvlc_log_unset 1 6 (installed 77 9) = Crash InvalidFree s'
    ∧ logger s' !! 1 = None
    ∧ heap s' = heap (installed 77 9)
    ∧ trace s' = trace (installed 77 9) ++ [Elibvlc_log_unset 1].
Proof.
  apply (log_unset_bad_handle (installed 77 9) 1 6).
  - discriminate.
  - reflexivity.
Defined.

Lemma log_set_twice_leaks_witness :
  heap (installed_twice 1 77 9 1 88 3) !! 5
  = Some (Build_context (Some 77) (Some 9))
  ∧ logger (installed_twice 1 77 9 1 88 3) !! 1
    = Some (fn_swiftvlc_log_bridge, 6)
  ∧ (∀ ev, libvlc_log mini_format 1 ev (installed_twice 1 77 9 1 88 3)
           = Done tt (emit (callback_of mini_format 88 3 ev)
                        (installed_twice 1 77 9 1 88 3)))
  ∧ ∃ s3,
      swiftvlc_log_unset 1 6 (installed_twice 1 77 9 1 88 3) = Done tt s3
      ∧ heap s3 !! 5 = Some (Build_context (Some 77) (Some 9))
      ∧ logger s3 !! 1 = None.
Proof.
  apply (log_set_twice_leaks mini_format two_blocks 1 77 9 88 3 5 6
           (installed_once 1 77 9) (installed_twice 1 77 9 1 88 3)).
  - reflexivity.
  - reflexivity.
  - discriminate.
  - discriminate.
Defined.

Lemma log_unset_wrong_instance_witness :
  ∃ s2,
    swiftvlc_log_unset 2 5 (installed 77 9) = Done tt s2
    ∧ logger s2 !! 1 = Some (fn_swiftvlc_log_bridge, 5)
    ∧ ∀ ev, libvlc_log mini_format 1 ev s2 = Crash DanglingAccess s2.
Proof.
  apply (log_unset_wrong_instance mini_format one_block 1 2 77 9 5
           (installed 77 9)).
  - reflexivity.
  - discriminate.
Defined.

Lemma log_events_one_callback_each_witness :
  libvlc_logs mini_format ((λ ev, (1, ev)) <$> [opened; long_line])
    (installed 77 9)
  = Done tt (Build_state (heap (installed 77 9)) (pool (installed 77 9))
               (logger (installed 77 9))
               (trace (installed 77 9)
                ++ [Eswiftvlc_log_cb 77 9 3 (Some (bytes "core"))
                      ((Some <$> bytes "opened a.mkv (42%)") ++ Some x00
                         :: replicate 1005 None);
                    Eswiftvlc_log_cb 77 9 4 (Some (bytes "core"))
                      ((Some <$> replicate 1023 "x"%byte) ++ [Some x00])])).
Proof.
  destruct (log_events_one_callback_each mini_format (installed 77 9) 1 5 77 9
              [opened; long_line]) as [Hrun Hmsg].
  - reflexivity.
  - reflexivity.
  - discriminate.
  - discriminate.
  - rewrite Hrun. csimpl.
    rewrite (Hmsg opened (bytes "opened a.mkv (42%)")) by reflexivity.
    rewrite (Hmsg long_line (replicate 2000 "x"%byte))
      by (vm_compute; reflexivity).
    reflexivity.
Defined.

Lemma log_bridge_message_terminated_witness :
  ∃ message str,
    swiftvlc_log_bridge mini_format 5 4 core_record
      (ev_fmt long_line) (ev_args long_line) (installed 77 9)
    = Done tt (emit (Eswiftvlc_log_cb 77 9 4 (Some (bytes "core")) message)
                 (installed 77 9))
    ∧ length message = 1024%nat
    ∧ c_string message = Some str
    ∧ str `prefix_of` replicate 2000 "x"%byte
    ∧ (length str ≤ 1023)%nat.
Proof.
  apply (log_bridge_message_terminated mini_format (installed 77 9) 5 77 9 4
           core_record (ev_fmt long_line) (ev_args long_line)
           (replicate 2000 "x"%byte)).
  - reflexivity.
  - discriminate.
  - discriminate.
  - vm_compute. reflexivity.
Defined.

Lemma log_events_never_fault_witness :
  ∃ s',
    libvlc_logs mini_format [(1, opened); (2, long_line); (1, long_line)]
      (installed 77 9)
    = Done tt s'
    ∧ registrations_live s'.
Proof.
  apply (log_events_never_fault mini_format (installed 77 9)
           [(1, opened); (2, long_line); (1, long_line)]).
  exact registrations_live_installed.
Defined.

Lemma log_set_keeps_registrations_live_witness :
  77 ≠ NULL ∧ registrations_live (installed 77 9).
Proof.
  split; [discriminate|].
  apply (log_set_keeps_registrations_live one_block 1 77 9 5 (installed 77 9)).
  - by apply registrations_live_none.
  - discriminate.
  - reflexivity.
Defined.


Lemma log_two_instances_independent_witness :
  (∀ ev, libvlc_log mini_format 1 ev (installed_twice 1 77 9 2 88 3)
         = Done tt (emit (callback_of mini_format 77 9 ev)
                      (installed_twice 1 77 9 2 88 3)))
  ∧ (∀ ev, libvlc_log mini_format 2 ev (installed_twice 1 77 9 2 88 3)
           = Done tt (emit (callback_of mini_format 88 3 ev)
                        (installed_twice 1 77 9 2 88 3)))
  ∧ ∃ s3 s4,
      swiftvlc_log_unset 1 5 (installed_twice 1 77 9 2 88 3) = Done tt s3
      ∧ (∀ ev, libvlc_log mini_format 1 ev s3 = Done tt s3)
      ∧ (∀ ev, libvlc_log mini_format 2 ev s3
               = Done tt (emit (callback_of mini_format 88 3 ev) s3))
      ∧ swiftvlc_log_unset 2 6 s3 = Done tt s4
      ∧ heap s4 !! 5 = None ∧ heap s4 !! 6 = None
      ∧ logger s4 !! 1 = None ∧ logger s4 !! 2 = None.
Proof.
  apply (log_two_instances_independent mini_format two_blocks 1 2 77 9 88 3
           5 6 (installed_once 1 77 9) (installed_twice 1 77 9 2 88 3)).
  - reflexivity.
  - reflexivity.
  - discriminate.
  - discriminate.
  - discriminate.
  - discriminate.
Defined.

